(** * gockpit: State, StateMutation, Metric and Supervisor (state.go, supervisor.go)

    A shallow embedding of the state/mutation transaction mechanism and of
    the sampling loop of the Supervisor.

    Conventions of the model:
    - a Go [interface{}] value stored in [State.data] is a [value]: one
      constructor per dynamic type the code distinguishes (the integer, float,
      boolean and string types of the typed accessors) plus [VSlice], a
      [[]interface{}], as a representative of Go's uncomparable types;
      floats are IEEE-754 numbers ([spec_float]), NaN included;
    - a Go [map[string]T] is [option (gmap string T)]: [None] is the nil map,
      which reads as empty and is created by [make] on first write;
    - a run-time panic is [None] in an [option] result;
    - [time.Time] is [Z] nanoseconds since Go's zero time (January 1, year 1),
      [time.Duration] is an int64 count of nanoseconds in [Z];
    - a Go [error] is a [go_error]: [None] is nil, [Some (ERaw id)] an error
      value compared by identity (errors are pointers in Go) and
      [Some (EEntry e n)] an entry of the [Errors] table converted to
      [error]. *)

From Stdlib Require Import ZArith Lia Bool Ascii.
From Stdlib Require Import Floats.SpecFloat.
From stdpp Require Import base gmap strings list.

Set Warnings "-register-all".
Open Scope Z_scope.

(** ** Go dynamic values *)

Inductive value :=
| VNil
| VInt (i : Z)
| VInt8 (i : Z)
| VInt32 (i : Z)
| VInt64 (i : Z)
| VFloat32 (f : spec_float)
| VFloat64 (f : spec_float)
| VBool (b : bool)
| VString (s : string)
| VSlice (elems : list value).

(** Go's [==] on two [interface{}] values: equal dynamic types compare by
    value (floats by IEEE equality, so NaN differs from itself), different
    dynamic types are unequal, and two values of the same uncomparable
    dynamic type make the comparison panic ([None]). *)
Definition go_eq (x y : value) : option bool :=
  match x, y with
  | VNil, VNil => Some true
  | VInt a, VInt b | VInt8 a, VInt8 b | VInt32 a, VInt32 b
  | VInt64 a, VInt64 b => Some (Z.eqb a b)
  | VFloat32 a, VFloat32 b | VFloat64 a, VFloat64 b => Some (SFeqb a b)
  | VBool a, VBool b => Some (Bool.eqb a b)
  | VString a, VString b => Some (String.eqb a b)
  | VSlice _, VSlice _ => None
  | _, _ => Some false
  end.

(** ** Errors *)

(** The dynamic value of a non-nil [error]: an error made by a probe or a
    store, or an entry of the [Errors] table (fields [Err] and
    [occurrences]), which [State.Err] and [State.getError] return as an
    [error]. *)
Inductive err_val :=
| ERaw (id : Z)
| EEntry (err : option err_val) (n : nat).

Definition go_error := option err_val.

(** Go's [==] on two error values: same dynamic type and equal values; an
    entry compares field by field. *)
Fixpoint errv_eqb (a b : err_val) : bool :=
  match a, b with
  | ERaw x, ERaw y => Z.eqb x y
  | EEntry e n, EEntry e' n' =>
      match e, e' with
      | None, None => true
      | Some x, Some y => errv_eqb x y
      | _, _ => false
      end && Nat.eqb n n'
  | _, _ => false
  end.

Definition err_eq (a b : go_error) : bool :=
  match a, b with
  | None, None => true
  | Some x, Some y => errv_eqb x y
  | _, _ => false
  end.

(** Modelled from the spec: the [Errors] collaborator (a multi-error
    collection keyed by code, not part of src/).  An entry holds the latest
    error recorded under its code in its [Err] field and how many errors were
    collected under it; [Collect] records a new error under a code, replacing
    the latest one.  The code converts entries to [error] ([Err], [getError])
    and reads their [Err] field ([StateMutation.SetError]), so the entry type
    implements [error]. *)
Record ErrEntry := mkErrEntry { Err : go_error; occurrences : nat }.

Abbreviation Errors := (gmap string ErrEntry).

(** The zero entry, which [m[key]] gives for an absent key. *)
Definition zero_entry : ErrEntry := mkErrEntry None O.

(** An entry converted to the [error] interface: never nil. *)
Definition entry_error (e : ErrEntry) : go_error := Some (EEntry (Err e) (occurrences e)).

Definition Errors_Collect (es : Errors) (code : string) (err : go_error) : Errors :=
  let n := match es !! code with Some e => occurrences e | None => O end in
  <[code := mkErrEntry err (S n)]> es.

(** ** State *)

Section Model.
(** The [Alert] collaborator is not part of src/: an alert is any value with
    an update hook [a.update(currentValue, a)], which changes the alert. *)
Context {Alert : Type} (alert_update : value -> Alert -> Alert).

Record State := mkState {
  data : option (gmap string value);
  errors : option Errors;
  alerts : option (gmap string Alert)
}.

(** [m[key]] on a possibly nil map of values: the zero value [nil] when
    absent. *)
Definition data_get (d : option (gmap string value)) (key : string) : value :=
  match d with
  | Some m => default VNil (m !! key)
  | None => VNil
  end.

Definition make_if_nil {A} (m : option (gmap string A)) : gmap string A :=
  match m with Some m' => m' | None => ∅ end.

(** [s.errors[key].Err]: the zero entry (with a nil [Err]) when absent. *)
Definition errors_get_Err (es : option Errors) (key : string) : go_error :=
  match es with
  | Some m => match m !! key with Some e => Err e | None => None end
  | None => None
  end.

(** [func (s *State) set(key string, val interface{}) *State] *)
Definition State_set (s : State) (key : string) (val : value) : State :=
  mkState (Some (<[key := val]> (make_if_nil (data s)))) (errors s) (alerts s).

(** [func (s *State) setError(code string, err error) *State] *)
Definition State_setError (s : State) (code : string) (err : go_error) : State :=
  let es := make_if_nil (errors s) in
  match err with
  | None => mkState (data s) (Some (delete code es)) (alerts s)
  | Some _ => mkState (data s) (Some (Errors_Collect es code err)) (alerts s)
  end.

(** [func (s *State) apply(other *State)]: the [range] loop over
    [other.data] overwrites key-wise (a left-biased union), then every alert
    is updated with the current value of its key. *)
Definition State_apply (s other : State) : State :=
  let d := make_if_nil (data other) ∪ make_if_nil (data s) in
  mkState (Some d) (errors s)
    (match alerts s with
     | Some al => Some (map_imap (fun k a => Some (alert_update (data_get (Some d) k) a)) al)
     | None => None
     end).

(** [func (s *State) HasErrors() bool]: [len(s.errors) > 0]. *)
Definition State_HasErrors (s : State) : bool :=
  match errors s with Some es => bool_decide (0 < size es)%nat | None => false end.

(** [func (s *State) Err(name string) error]: nil for a nil table,
    otherwise [s.errors[name]] converted to [error], the zero entry for an
    absent [name]; both are non-nil. *)
Definition State_Err (s : State) (name : string) : go_error :=
  match errors s with
  | None => None
  | Some m => entry_error (default zero_entry (m !! name))
  end.

(** [func (s *State) getError(code string) error]: the entry under [code]
    converted to [error] when there is one, nil otherwise. *)
Definition State_getError (s : State) (code : string) : go_error :=
  match errors s with
  | Some m => match m !! code with Some e => entry_error e | None => None end
  | None => None
  end.

(** ** StateMutation *)

Record StateMutation := mkMutation { mutation : State; dirty : bool }.

Definition empty_State : State := mkState None None None.

(** [func (s *State) With() *StateMutation]: a fresh, empty staging state. *)
Definition State_With : StateMutation := mkMutation empty_State false.

(** [func (s *StateMutation) Set(key string, val interface{}) *StateMutation].
    The live State [live] is the mutation's [state] pointer; the result pairs
    the live State with the mutation, [None] being the panic of an
    uncomparable comparison. *)
Definition StateMutation_Set (live : State) (m : StateMutation) (key : string) (val : value)
  : option (State * StateMutation) :=
  match go_eq (data_get (data live) key) val with
  | None => None
  | Some true => Some (live, m)
  | Some false => Some (live, mkMutation (State_set (mutation m) key val) true)
  end.

(** [func (s *StateMutation) SetError(key string, err error) *StateMutation].
    It creates the live State's error table when it is nil. *)
Definition StateMutation_SetError (live : State) (m : StateMutation) (key : string) (err : go_error)
  : State * StateMutation :=
  let live' := match errors live with
               | None => mkState (data live) (Some ∅) (alerts live)
               | Some _ => live
               end in
  if err_eq err (errors_get_Err (errors live') key) then (live', m)
  else (live', mkMutation (State_setError (mutation m) key err) true).

(** [func (s *StateMutation) Apply()] *)
Definition StateMutation_Apply (live : State) (m : StateMutation) : State :=
  State_apply live (mutation m).

(** A call a probe makes on the tick's mutation. *)
Inductive mop :=
| MSet (key : string) (val : value)
| MSetError (key : string) (err : go_error).

Definition run_mop (w : State * StateMutation) (o : mop) : option (State * StateMutation) :=
  let '(live, m) := w in
  match o with
  | MSet k v => StateMutation_Set live m k v
  | MSetError k e => Some (StateMutation_SetError live m k e)
  end.

(** A sequence of calls; stops at the first panic. *)
Fixpoint run_mops (w : State * StateMutation) (os : list mop) : option (State * StateMutation) :=
  match os with
  | [] => Some w
  | o :: rest => match run_mop w o with Some w' => run_mops w' rest | None => None end
  end.

End Model.

Arguments State : clear implicits.
Arguments StateMutation : clear implicits.

(** ** Typed accessors *)

Section Accessors.
Context {Alert : Type}.
(** Go standard-library formatting used by [State.String]:
    [strconv.FormatFloat(f, 'g', 2, 64)], [strconv.FormatFloat(float64(f),
    'g', 2, 32)] and [fmt.Sprintf("%v", v)]. *)
Context (FormatFloat64 FormatFloat32 : spec_float -> string)
        (Sprintf_v : value -> string).

(** The accessors' defensive [if s.data == nil { s.data = make(...) }]. *)
Definition State_lazy_init (s : State Alert) : State Alert :=
  match data s with
  | None => mkState (Some ∅) (errors s) (alerts s)
  | Some _ => s
  end.

Definition digit_char (d : Z) : ascii := ascii_of_nat (48 + Z.to_nat d).

Fixpoint digits_rev (fuel : nat) (n : Z) : string :=
  match fuel with
  | O => EmptyString
  | S f => let c := String (digit_char (n mod 10)) EmptyString in
           if n <? 10 then c else (digits_rev f (n / 10) +:+ c)%string
  end.

(** [strconv.Itoa] / [strconv.FormatInt(i, 10)]: decimal digits, with a
    leading [-] for negative numbers. *)
Definition Itoa (i : Z) : string :=
  let n := Z.abs i in
  let ds := digits_rev (S (Z.to_nat (Z.log2 n))) n in
  if i <? 0 then String "-" ds else ds.

Definition FormatBool (b : bool) : string := if b then "true" else "false".

(** [func (s *State) Int(name string) int]; [None] is the panic. *)
Definition State_Int (s : State Alert) (name : string) : State Alert * option Z :=
  let s' := State_lazy_init s in
  (s', match data_get (data s') name with
       | VNil => Some 0
       | VInt i | VInt32 i | VInt8 i | VInt64 i => Some i
       | _ => None
       end).

(** [func (s *State) Float(name string) float64]; [float64(f)] of a
    float32 is exact. *)
Definition State_Float (s : State Alert) (name : string) : State Alert * option spec_float :=
  let s' := State_lazy_init s in
  (s', match data_get (data s') name with
       | VNil => Some (S754_zero false)
       | VFloat32 f | VFloat64 f => Some f
       | _ => None
       end).

(** [func (s *State) Bool(name string) bool] *)
Definition State_Bool (s : State Alert) (name : string) : State Alert * option bool :=
  let s' := State_lazy_init s in
  (s', match data_get (data s') name with
       | VNil => Some false
       | VBool b => Some b
       | _ => None
       end).

(** [func (s *State) String(name string) string]: never panics. *)
Definition State_String (s : State Alert) (name : string) : State Alert * option string :=
  let s' := State_lazy_init s in
  (s', match data_get (data s') name with
       | VNil => Some ""%string
       | VString x => Some x
       | VFloat64 f => Some (FormatFloat64 f)
       | VFloat32 f => Some (FormatFloat32 f)
       | VInt i => Some (Itoa i)
       | VInt64 i => Some (Itoa i)
       | VBool b => Some (FormatBool b)
       | v => Some (Sprintf_v v)
       end).

End Accessors.

(** ** JSON encoding ([encoding/json]) *)

Inductive json :=
| JNull
| JBool (b : bool)
| JInt (i : Z)
| JFloat (f : spec_float)
| JString (s : string)
| JArray (elems : list json)
| JObject (members : list (string * json)).

(** Encoding of an [interface{}] value; NaN and infinities are an
    [UnsupportedValueError] ([None]). *)
Fixpoint enc_value (v : value) : option json :=
  match v with
  | VNil => Some JNull
  | VInt i | VInt8 i | VInt32 i | VInt64 i => Some (JInt i)
  | VFloat32 f | VFloat64 f =>
      match f with
      | S754_nan | S754_infinity _ => None
      | _ => Some (JFloat f)
      end
  | VBool b => Some (JBool b)
  | VString s => Some (JString s)
  | VSlice vs =>
      (fix enc_list (l : list value) : option (list json) :=
         match l with
         | [] => Some []
         | x :: r => match enc_value x, enc_list r with
                     | Some j, Some js => Some (j :: js)
                     | _, _ => None
                     end
         end) vs ≫= fun js => Some (JArray js)
  end.

(** Byte-wise order on strings, the order in which [encoding/json] writes
    map keys. *)
Fixpoint str_leb (a b : string) : bool :=
  match a, b with
  | EmptyString, _ => true
  | String _ _, EmptyString => false
  | String x a', String y b' =>
      if (nat_of_ascii x <? nat_of_ascii y)%nat then true
      else if (nat_of_ascii x =? nat_of_ascii y)%nat then str_leb a' b' else false
  end.

Fixpoint insert_sorted {A} (kv : string * A) (l : list (string * A)) : list (string * A) :=
  match l with
  | [] => [kv]
  | kv' :: r => if str_leb kv.1 kv'.1 then kv :: l else kv' :: insert_sorted kv r
  end.

Definition sort_by_key {A} (l : list (string * A)) : list (string * A) :=
  foldr insert_sorted [] l.

Fixpoint enc_members (l : list (string * value)) : option (list (string * json)) :=
  match l with
  | [] => Some []
  | (k, v) :: r => j ← enc_value v; js ← enc_members r; Some ((k, j) :: js)
  end.

(** A [map[string]interface{}]: [null] when nil, otherwise an object with
    sorted keys. *)
Definition enc_data (d : option (gmap string value)) : option json :=
  match d with
  | None => Some JNull
  | Some m => ms ← enc_members (sort_by_key (map_to_list m)); Some (JObject ms)
  end.

Section Marshal.
Context {Alert : Type}.
(** The encodings of the external [Errors] and [Alerts] types. *)
Context (enc_errors : Errors -> option json)
        (enc_alerts : gmap string Alert -> option json).

(** An [omitempty] map field: absent when the map is nil or empty. *)
Definition omitempty_field {A} (name : string) (enc : gmap string A -> option json)
    (m : option (gmap string A)) : option (list (string * json)) :=
  match m with
  | Some m' => if bool_decide (0 < size m')%nat
               then j ← enc m'; Some [(name, j)] else Some []
  | None => Some []
  end.

(** [func (s *State) MarshalJSON() ([]byte, error)]: [json.Marshal] of
    [struct { State `json:"state"`; Errors `json:"errors,omitempty"`;
    Alerts `json:"alerts,omitempty"` }]; [None] is the returned error. *)
Definition State_MarshalJSON (s : State Alert) : option json :=
  dj ← enc_data (data s);
  ej ← omitempty_field "errors" enc_errors (errors s);
  aj ← omitempty_field "alerts" enc_alerts (alerts s);
  Some (JObject ([("state", dj)] ++ ej ++ aj)).

End Marshal.

(** ** Metric and Supervisor *)

(** [t.Add(d)] and [t.After(u)] on [time.Time]. *)
Definition time_Add (t d : Z) : Z := t + d.
Definition time_After (t u : Z) : bool := u <? t.

Section Supervisor.
Context {Alert : Type} (alert_update : value -> Alert -> Alert).

(** A probe ([Probe] or [ProbeFunc], invoked alike) is external code; it is
    the sequence of [Set]/[SetError] calls it makes on the tick's mutation,
    which may depend on the tick time. *)
Definition Probe := Z -> list mop.

Record Metric := mkMetric {
  m_name : string;
  interval : Z;
  lastUpdate : Z;
  probe : Probe
}.

(** The [probe interface{}] argument of [NewMetric]: a [Probe], a
    [ProbeFunc], or a value of any other type. *)
Inductive ProbeArg :=
| AsProbe (p : Probe)
| AsProbeFunc (f : Probe)
| OtherType.

(** [NewMetric]: the type switch panics ([None]) on any other type;
    [lastUpdate] is the zero [time.Time]. *)
Definition NewMetric (name : string) (itv : Z) (p : ProbeArg) : option Metric :=
  match p with
  | AsProbe f | AsProbeFunc f => Some (mkMetric name itv 0 f)
  | OtherType => None
  end.

(** The effects of a tick that the loop makes visible. *)
Inductive event :=
| EProbe (name : string)
| EApply
| EListener (l : nat) (s : State Alert)
| ESave (bucket name : string) (fields : option (gmap string value))
        (tags : option (gmap string string))
| ELogError (msg : string).

Definition due (now : Z) (mg : Metric) : bool :=
  time_After now (time_Add (lastUpdate mg) (interval mg)).

(** [func (mg *Metric) updateState(ctx, now, mutation)]: it re-checks the
    due condition, then invokes the probe. *)
Definition Metric_updateState (now : Z) (mg : Metric) (w : State Alert * StateMutation Alert)
  : option (State Alert * StateMutation Alert * list event) :=
  if negb (due now mg) then Some (w, [])
  else w' ← run_mops w (probe mg now); Some (w', [EProbe (m_name mg)]).

Definition set_lastUpdate (mg : Metric) (t : Z) : Metric :=
  mkMetric (m_name mg) (interval mg) t (probe mg).

(** The [for _, mg := range s.metrics] loop of a tick; [ms] is the map's
    iteration order. *)
Fixpoint tick_metrics (now : Z) (w : State Alert * StateMutation Alert) (ms : list Metric)
  : option (State Alert * StateMutation Alert * list event * list Metric) :=
  match ms with
  | [] => Some (w, [], [])
  | mg :: rest =>
      if time_After now (time_Add (lastUpdate mg) (interval mg)) then
        '(w', evs) ← Metric_updateState now mg w;
        '(w'', evs', rest') ← tick_metrics now w' rest;
        Some (w'', evs ++ evs', set_lastUpdate mg now :: rest')
      else
        (* copy previous error *)
        let w' := match State_getError w.1 (m_name mg) with
                  | Some e => StateMutation_SetError w.1 w.2 (m_name mg) (Some e)
                  | None => w
                  end in
        '(w'', evs', rest') ← tick_metrics now w' rest;
        Some (w'', evs', mg :: rest')
  end.

Record Supervisor := mkSupervisor {
  sv_metrics : list Metric;
  sv_state : State Alert;
  sv_listeners : list nat;       (* listeners, in registration order *)
  sv_store : bool;               (* [s.store != nil] *)
  sv_name : string;
  sv_cancel : bool;              (* [s.cancel != nil]: [Run] was called *)
  sv_cancelled : bool            (* the loop's context is done *)
}.

(** [NewSupervisor(name, opts...)], with [WithStore] given or not. *)
Definition NewSupervisor (name : string) (store : bool) : Supervisor :=
  mkSupervisor [] (mkState (Some ∅) None None) [] store name false false.

(** [AddProbe]: replaces the metric of the same name or adds one; panics
    with [NewMetric]. *)
Definition AddProbe (s : Supervisor) (name : string) (itv : Z) (p : ProbeArg) : option Supervisor :=
  mg ← NewMetric name itv p;
  Some (mkSupervisor (filter (fun mg => m_name mg <> name) (sv_metrics s) ++ [mg])
    (sv_state s) (sv_listeners s) (sv_store s) (sv_name s) (sv_cancel s) (sv_cancelled s)).

(** [AddListener]: [s.listeners = append(s.listeners, l)]. *)
Definition AddListener (s : Supervisor) (l : nat) : Supervisor :=
  mkSupervisor (sv_metrics s) (sv_state s) (sv_listeners s ++ [l]) (sv_store s)
    (sv_name s) (sv_cancel s) (sv_cancelled s).

(** [Run]: installs the cancel function (the goroutine is [loop_step]). *)
Definition Run (s : Supervisor) : Supervisor :=
  mkSupervisor (sv_metrics s) (sv_state s) (sv_listeners s) (sv_store s)
    (sv_name s) true false.

(** [Stop]: a no-op when [Run] was never called, otherwise cancels. *)
Definition Stop (s : Supervisor) : Supervisor :=
  if negb (sv_cancel s) then s
  else mkSupervisor (sv_metrics s) (sv_state s) (sv_listeners s) (sv_store s)
         (sv_name s) (sv_cancel s) true.

(** [CollectError]: [s.state.setError(code, err)]. *)
Definition CollectError (s : Supervisor) (code : string) (err : go_error) : Supervisor :=
  mkSupervisor (sv_metrics s) (State_setError (sv_state s) code err) (sv_listeners s)
    (sv_store s) (sv_name s) (sv_cancel s) (sv_cancelled s).

Definition save_log_msg : string := "could not save metrics state".

(** The body of the [case now := <-ticker.C] branch.  [save_res] is what
    [s.store.Save] returns on this tick; [None] is a panic of a probe's
    [Set]. *)
Definition tick (s : Supervisor) (now : Z) (save_res : go_error)
  : option (Supervisor * list event) :=
  '(live, mutation, evs, ms) ← tick_metrics now (sv_state s, State_With) (sv_metrics s);
  let st := StateMutation_Apply alert_update live mutation in
  let lev := if dirty mutation then map (fun l => EListener l st) (sv_listeners s) else [] in
  let sev := if sv_store s
             then ESave "gockpit" (sv_name s) (data st) None
                  :: match save_res with Some _ => [ELogError save_log_msg] | None => [] end
             else [] in
  Some (mkSupervisor ms st (sv_listeners s) (sv_store s) (sv_name s) (sv_cancel s) (sv_cancelled s),
        evs ++ [EApply] ++ lev ++ sev).

(** One iteration of the goroutine's [for { select { ... } }]: the ticker
    case can be taken at any time, the [<-ctx.Done()] case once the context
    is cancelled, and its body is empty.  No iteration leaves the loop. *)
Inductive loop_step : Supervisor -> Supervisor -> list event -> Prop :=
| loop_tick s now save_res s' tr :
    tick s now save_res = Some (s', tr) -> loop_step s s' tr
| loop_done s :
    sv_cancelled s = true -> loop_step s s [].

End Supervisor.

Arguments Metric : clear implicits.
Arguments Supervisor : clear implicits.
Arguments event : clear implicits.

(** ** Further State operations *)

Section MoreState.
Context {Alert : Type}.

(** [func (s *State) Elem(name string) interface{}] *)
Definition State_Elem (s : State Alert) (name : string) : State Alert * value :=
  let s' := State_lazy_init s in (s', data_get (data s') name).

(** [func (s *State) clearError(code string) *State] *)
Definition State_clearError (s : State Alert) (code : string) : State Alert :=
  mkState (data s) (Some (delete code (make_if_nil (errors s)))) (alerts s).

End MoreState.

(** Whether [encoding/json] can encode a value: every float, also inside a
    slice, is finite. *)
Fixpoint value_encodable (v : value) : bool :=
  match v with
  | VFloat32 f | VFloat64 f =>
      match f with S754_nan | S754_infinity _ => false | _ => true end
  | VSlice vs => forallb value_encodable vs
  | _ => true
  end.

(** ** Supervisor options *)

(** [var defaultSamplingInterval = time.Second] *)
Definition defaultSamplingInterval : Z := 1000000000.

(** [WithStore(store)] ([true] for a non-nil store) and
    [WithSamplingInterval(interval)]. *)
Inductive SupervisorOption :=
| WithStore (store : bool)
| WithSamplingInterval (itv : Z).

Definition apply_option (cfg : bool * Z) (o : SupervisorOption) : bool * Z :=
  match o with
  | WithStore b => (b, cfg.2)
  | WithSamplingInterval d => (cfg.1, d)
  end.

(** The [store] and [samplingInterval] fields [NewSupervisor(name, opts...)]
    leaves: the options are applied in order to the zero values, then a zero
    interval is replaced by the default. *)
Definition NewSupervisor_config (opts : list SupervisorOption) : bool * Z :=
  let cfg := fold_left apply_option opts (false, 0) in
  (cfg.1, if cfg.2 =? 0 then defaultSamplingInterval else cfg.2).

(** ** Concrete configurations *)

(** Alerts that ignore their update. *)
Definition no_alert (_ : value) (a : unit) : unit := a.

(** A probe setting [temp = 42], and one recording an error on [temp] or
    clearing it. *)
Definition temp_probe : Probe := fun _ => [MSet "temp" (VInt 42)].
Definition temp_err_probe (e : go_error) : Probe := fun _ => [MSetError "temp" e].

(** A Supervisor ["plant"] with a store, the metric ["temp"] (interval 0,
    a [ProbeFunc]) and listener 1; [AddProbe] does not panic on it. *)
Definition plant : Supervisor unit :=
  match AddProbe (NewSupervisor "plant" true) "temp" 0 (AsProbeFunc temp_probe) with
  | Some s => AddListener s 1
  | None => NewSupervisor "plant" true
  end.

(** The same with a probe that only records error [ERaw 7] on ["temp"], and
    no store. *)
Definition err_plant : Supervisor unit :=
  match AddProbe (NewSupervisor "plant" false) "temp" 0
          (AsProbeFunc (temp_err_probe (Some (ERaw 7)))) with
  | Some s => AddListener s 1
  | None => NewSupervisor "plant" false
  end.

(** A Supervisor with error 7 recorded on ["temp"], listener 1, and the
    metric ["temp"] of interval 10 ns, which is not due at time 5. *)
Definition idle_plant : Supervisor unit :=
  match AddProbe (AddListener (CollectError (NewSupervisor "plant" false) "temp" (Some (ERaw 7))) 1)
          "temp" 10 (AsProbeFunc temp_probe) with
  | Some s => s
  | None => NewSupervisor "plant" false
  end.

(** A tick time in 2026: about 2025 years after Go's zero time, in ns. *)
Definition now_2026 : Z := 63900000000000000000.

(** * Properties *)

Section Properties.
Context {Alert : Type} (alert_update : value -> Alert -> Alert).

(** ** Mutation calls and the live State *)

Lemma run_mop_live_data (w w' : State Alert * StateMutation Alert) (o : mop) :
  run_mop w o = Some w' -> data w'.1 = data w.1.
Proof.
  destruct w as [live m], o as [k v | k e]; simpl; intros H.
  - unfold StateMutation_Set in H.
    destruct (go_eq _ v) as [[|]|]; inversion H; reflexivity.
  - unfold StateMutation_SetError in H.
    destruct (errors live), (err_eq _ _); inversion H; reflexivity.
Qed.

Lemma run_mops_live_data (os : list mop) :
  forall (w w' : State Alert * StateMutation Alert),
  run_mops w os = Some w' -> data w'.1 = data w.1.
Proof.
  induction os as [|o os IH]; simpl; intros w w' H.
  - inversion H; reflexivity.
  - destruct (run_mop w o) as [w1|] eqn:Ho; [|discriminate].
    rewrite (IH _ _ H). exact (run_mop_live_data _ _ _ Ho).
Qed.

Lemma State_apply_errors (s o : State Alert) :
  errors (State_apply alert_update s o) = errors s.
Proof. reflexivity. Qed.

Lemma State_apply_data (s o : State Alert) :
  data (State_apply alert_update s o) = Some (make_if_nil (data o) ∪ make_if_nil (data s)).
Proof. reflexivity. Qed.

Lemma State_apply_get (s o : State Alert) (k : string) :
  data_get (data (State_apply alert_update s o)) k =
  match make_if_nil (data o) !! k with
  | Some v => v
  | None => data_get (data s) k
  end.
Proof.
  rewrite State_apply_data; unfold data_get, make_if_nil.
  destruct (data o) as [mo|], (data s) as [ms|]; rewrite ?lookup_union;
    rewrite ?lookup_empty;
    repeat match goal with |- context [?m !! k] => destruct (m !! k) end; reflexivity.
Qed.

(** [State.setError(code, nil)] removes [code] from the error table,
    however many errors were collected under it. *)
Lemma State_setError_nil (s : State Alert) (code : string) :
  State_getError (State_setError s code None) code = None /\
  size (make_if_nil (errors (State_setError s code None))) =
    (size (make_if_nil (errors s)) - (if make_if_nil (errors s) !! code then 1 else 0))%nat.
Proof.
  unfold State_getError, State_setError; simpl. split.
  - rewrite lookup_delete_eq. reflexivity.
  - destruct (make_if_nil (errors s) !! code) eqn:E.
    + rewrite map_size_delete_Some by eauto. lia.
    + rewrite delete_id by exact E. lia.
Qed.

End Properties.

Section TickProperties.
Context {Alert : Type} (alert_update : value -> Alert -> Alert).

Lemma Metric_updateState_due (now : Z) (mg : Metric) (w w' : State Alert * StateMutation Alert)
    (evs : list (event Alert)) :
  due now mg = true ->
  Metric_updateState now mg w = Some (w', evs) ->
  run_mops w (probe mg now) = Some w' /\ evs = [EProbe (m_name mg)].
Proof.
  unfold Metric_updateState; intros Hd; rewrite Hd; simpl.
  destruct (run_mops w (probe mg now)); simpl; intros H; inversion H; auto.
Qed.

(** The metrics loop of a tick: each metric is advanced to [now] exactly
    when it is due, and the probes invoked are exactly those of the due
    metrics, in iteration order. *)
Lemma tick_metrics_spec (now : Z) (ms : list Metric) :
  forall (w w' : State Alert * StateMutation Alert) (evs : list (event Alert)) ms',
  tick_metrics now w ms = Some (w', evs, ms') ->
  ms' = map (fun mg => if due now mg then set_lastUpdate mg now else mg) ms /\
  evs = flat_map (fun mg => if due now mg then [EProbe (m_name mg)] else []) ms.
Proof.
  induction ms as [|mg ms IH]; simpl; intros w w' evs ms' H.
  - inversion H; auto.
  - fold (due now mg) in H. destruct (due now mg) eqn:Hd.
    + destruct (Metric_updateState now mg w) as [[w1 e1]|] eqn:Hu; simpl in H; [|discriminate].
      destruct (Metric_updateState_due now mg w w1 e1 Hd Hu) as [_ ->].
      destruct (tick_metrics now w1 ms) as [[[w2 e2] r2]|] eqn:Ht; simpl in H; [|discriminate].
      inversion H; subst. destruct (IH _ _ _ _ Ht) as [-> ->]. auto.
    + match type of H with context [tick_metrics now ?x ms] =>
        destruct (tick_metrics now x ms) as [[[w2 e2] r2]|] eqn:Ht end;
        simpl in H; [|discriminate].
      inversion H; subst. destruct (IH _ _ _ _ Ht) as [-> ->]. auto.
Qed.

Lemma tick_shape (s : Supervisor Alert) (now : Z) (r : go_error) (s' : Supervisor Alert)
    (tr : list (event Alert)) :
  tick alert_update s now r = Some (s', tr) ->
  exists live m pre,
    tick_metrics now (sv_state s, State_With) (sv_metrics s) = Some (live, m, pre, sv_metrics s') /\
    sv_state s' = StateMutation_Apply alert_update live m /\
    sv_listeners s' = sv_listeners s /\ sv_store s' = sv_store s /\
    sv_name s' = sv_name s /\ sv_cancel s' = sv_cancel s /\ sv_cancelled s' = sv_cancelled s /\
    tr = pre ++ [EApply]
         ++ (if dirty m then map (fun l => EListener l (sv_state s')) (sv_listeners s) else [])
         ++ (if sv_store s
             then ESave "gockpit" (sv_name s) (data (sv_state s')) None
                  :: match r with Some _ => [ELogError save_log_msg] | None => [] end
             else []).
Proof.
  unfold tick.
  destruct (tick_metrics now (sv_state s, State_With) (sv_metrics s))
    as [[[[live m] pre] ms]|] eqn:Ht; simpl; intros H; [|discriminate].
  inversion H; subst; simpl. exists live, m, pre. repeat split; auto.
Qed.

End TickProperties.

(** * Claims *)

Section Claims.
Context {Alert : Type} (alert_update : value -> Alert -> Alert).

(** C3 (amended): when Go's [==] reports the live value at [k] equal to
    [v], [Set(k, v)] leaves the mutation as it is (no dirty flag, nothing
    staged); if the mutation has staged nothing under [k], applying it leaves
    the live value at [k] as it was. *)
Theorem Set_equal_value_noop (live : State Alert) (m : StateMutation Alert) (k : string) (v : value) :
  go_eq (data_get (data live) k) v = Some true ->
  StateMutation_Set live m k v = Some (live, m) /\
  (make_if_nil (data (mutation m)) !! k = None ->
   data_get (data (StateMutation_Apply alert_update live m)) k = data_get (data live) k).
Proof.
  intros Heq. split.
  - unfold StateMutation_Set. rewrite Heq. reflexivity.
  - intros Hk. unfold StateMutation_Apply. rewrite State_apply_get, Hk. reflexivity.
Qed.

(** C4 (amended): when [MarshalJSON] succeeds it yields an object whose
    first member is ["state"] with the encoded data map ([null] for a nil
    map), followed by ["errors"] exactly when the error table is non-empty
    and ["alerts"] exactly when the alert table is non-empty. *)
Theorem MarshalJSON_members (enc_errors : Errors -> option json)
    (enc_alerts : gmap string Alert -> option json) (s : State Alert) (j : json) :
  State_MarshalJSON enc_errors enc_alerts s = Some j ->
  exists dj ms,
    j = JObject (("state", dj) :: ms) /\ enc_data (data s) = Some dj /\
    map fst ms = (if bool_decide (0 < size (make_if_nil (errors s)))%nat then ["errors"] else [])
                 ++ (if bool_decide (0 < size (make_if_nil (alerts s)))%nat then ["alerts"] else []).
Proof.
  unfold State_MarshalJSON.
  destruct (enc_data (data s)) as [dj|]; simpl; [|discriminate].
  unfold omitempty_field, make_if_nil.
  destruct (errors s) as [es|]; [destruct (bool_decide (0 < size es)%nat) eqn:Be;
    [destruct (enc_errors es) as [ej|]; simpl; [|discriminate]|]|]; simpl;
  (destruct (alerts s) as [al|]; [destruct (bool_decide (0 < size al)%nat) eqn:Ba;
    [destruct (enc_alerts al) as [aj|]; simpl; [|discriminate]|]|]); simpl;
  intros H; inversion H; subst; eexists _, _; split; try reflexivity; split; try reflexivity;
  rewrite ?Be, ?Ba; reflexivity.
Qed.

End Claims.

Section ClaimsTick.
Context {Alert : Type} (alert_update : value -> Alert -> Alert).

(** C5: on a tick at [now], a metric is due exactly when [now] is strictly
    after [lastUpdate + interval]; the probes invoked are exactly those of
    the due metrics, each due metric's [lastUpdate] becomes [now] and the
    others keep theirs; a metric with the zero [lastUpdate] and any int64
    interval is due at every tick time after year 293 of Go's clock (2^63
    nanoseconds after the zero time). *)
Theorem tick_due_metrics (s : Supervisor Alert) (now : Z) (r : go_error)
    (s' : Supervisor Alert) (tr : list (event Alert)) :
  tick alert_update s now r = Some (s', tr) ->
  (forall mg : Metric, due now mg = true <-> lastUpdate mg + interval mg < now) /\
  sv_metrics s' = map (fun mg => if due now mg then set_lastUpdate mg now else mg) (sv_metrics s) /\
  (exists rest, tr = flat_map (fun mg => if due now mg then [EProbe (m_name mg)] else [])
                       (sv_metrics s) ++ rest /\ forall n, ~ In (EProbe n) rest) /\
  (2 ^ 63 <= now -> forall mg : Metric, lastUpdate mg = 0 -> interval mg < 2 ^ 63 ->
   due now mg = true).
Proof.
  intros H. destruct (tick_shape alert_update s now r s' tr H)
    as (live & m & pre & Ht & _ & _ & _ & _ & _ & _ & Htr).
  destruct (tick_metrics_spec now (sv_metrics s) _ _ _ _ Ht) as [Hms Hpre].
  split; [|split; [exact Hms|split]].
  - intros mg. unfold due, time_After, time_Add. rewrite Z.ltb_lt. reflexivity.
  - rewrite Htr, Hpre. eexists. split; [reflexivity|].
    intros n Hin. simpl in Hin. destruct Hin as [Hin|Hin]; [discriminate|].
    apply in_app_or in Hin. destruct Hin as [Hin|Hin].
    + destruct (dirty m); [|contradiction].
      apply in_map_iff in Hin. destruct Hin as (? & Hc & _). discriminate.
    + destruct (sv_store s); [|contradiction].
      destruct Hin as [Hin|Hin]; [discriminate|].
      destruct r; [destruct Hin as [Hin|[]]; discriminate|contradiction].
  - intros Hnow mg H0 Hi. unfold due, time_After, time_Add. rewrite H0. apply Z.ltb_lt. lia.
Qed.

(** In a tick, the listeners are called exactly when the tick's mutation
    is dirty, each once, in registration order, right after the mutation is
    applied, and each is passed the post-[Apply] State, which holds every
    value the mutation staged (its staged errors are not merged, see
    [listener_misses_staged_error]). *)
Theorem tick_listeners_after_apply (s : Supervisor Alert) (now : Z) (r : go_error)
    (s' : Supervisor Alert) (tr : list (event Alert)) :
  tick alert_update s now r = Some (s', tr) ->
  exists live m pre post,
    tick_metrics now (sv_state s, State_With) (sv_metrics s) = Some (live, m, pre, sv_metrics s') /\
    sv_state s' = StateMutation_Apply alert_update live m /\
    tr = pre ++ [EApply]
         ++ (if dirty m then map (fun l => EListener l (sv_state s')) (sv_listeners s) else [])
         ++ post /\
    (forall l st, ~ In (EListener l st) pre /\ ~ In (EListener l st) post) /\
    (forall k v, make_if_nil (data (mutation m)) !! k = Some v ->
                 data_get (data (sv_state s')) k = v).
Proof.
  intros H. destruct (tick_shape alert_update s now r s' tr H)
    as (live & m & pre & Ht & Hst & _ & _ & _ & _ & _ & Htr).
  destruct (tick_metrics_spec now (sv_metrics s) _ _ _ _ Ht) as [_ Hpre].
  eexists live, m, pre, _. split; [exact Ht|split; [exact Hst|split; [exact Htr|split]]].
  - intros l st. split.
    + rewrite Hpre. intros Hin. apply in_flat_map in Hin.
      destruct Hin as (mg & _ & Hin). destruct (due now mg); [|contradiction].
      destruct Hin as [Hin|[]]; discriminate.
    + destruct (sv_store s); [|intros []].
      intros [Hin|Hin]; [discriminate|].
      destruct r; [destruct Hin as [Hin|[]]; discriminate|contradiction].
  - intros k v Hk. rewrite Hst. unfold StateMutation_Apply.
    rewrite State_apply_get, Hk. reflexivity.
Qed.

(** C8: on every tick of a Supervisor with a store, dirty or not, the sink's
    [Save] is called once, after the listeners, with bucket ["gockpit"], the
    Supervisor's name, the data map of the post-[Apply] State and nil tags; an
    error it returns is logged and nothing else: the State after the tick is
    the same whatever [Save] returns, and the loop goes on. *)
Theorem tick_persists_every_tick (s : Supervisor Alert) (now : Z) (r : go_error)
    (s' : Supervisor Alert) (tr : list (event Alert)) :
  tick alert_update s now r = Some (s', tr) ->
  sv_store s = true ->
  (exists pre : list (event Alert),
     tr = pre ++ [ESave "gockpit" (sv_name s) (data (sv_state s')) None]
          ++ (match r with Some _ => [ELogError save_log_msg] | None => [] end) /\
     forall b n f t, ~ In (ESave b n f t) pre) /\
  (forall r', exists tr', tick alert_update s now r' = Some (s', tr')) /\
  loop_step alert_update s s' tr.
Proof.
  intros H Hst. destruct (tick_shape alert_update s now r s' tr H)
    as (live & m & pre & Ht & _ & _ & _ & _ & _ & _ & Htr).
  destruct (tick_metrics_spec now (sv_metrics s) _ _ _ _ Ht) as [_ Hpre].
  split; [|split].
  - rewrite Hst in Htr.
    exists (pre ++ [EApply] ++
            (if dirty m then map (fun l => EListener l (sv_state s')) (sv_listeners s) else [])).
    split.
    + rewrite Htr, <- !app_assoc. reflexivity.
    + intros b n f t Hin. apply in_app_or in Hin. destruct Hin as [Hin|[Hin|Hin]];
        [|discriminate|].
      * rewrite Hpre in Hin. apply in_flat_map in Hin.
        destruct Hin as (mg & _ & Hin). destruct (due now mg); [|contradiction].
        destruct Hin as [Hin|[]]; discriminate.
      * destruct (dirty m); [|contradiction].
        apply in_map_iff in Hin. destruct Hin as (? & Hc & _). discriminate.
  - intros r'. unfold tick in H |- *. rewrite Ht in H |- *. simpl in H |- *.
    inversion H; subst. eexists. reflexivity.
  - econstructor. exact H.
Qed.

(** C10: [Set] and [SetError] calls on a mutation leave the live State's
    data map as it was; only [Apply] changes it, by merging in the staged
    data. *)
Theorem mutation_calls_keep_live_data (live : State Alert) (m : StateMutation Alert)
    (os : list mop) (live' : State Alert) (m' : StateMutation Alert) :
  run_mops (live, m) os = Some (live', m') ->
  data live' = data live /\
  data (StateMutation_Apply alert_update live' m') =
    Some (make_if_nil (data (mutation m')) ∪ make_if_nil (data live)).
Proof.
  intros H. pose proof (run_mops_live_data os _ _ H) as Hd. simpl in Hd.
  split; [exact Hd|]. unfold StateMutation_Apply. rewrite State_apply_data, Hd. reflexivity.
Qed.

End ClaimsTick.

Section ClaimsAccessors.
Context {Alert : Type} (FormatFloat64 FormatFloat32 : spec_float -> string)
        (Sprintf_v : value -> string).

(** C9: on an absent key, [Int], [Float], [Bool] and [String] return [0],
    [0.0], [false] and [""] and do not panic. *)
Theorem accessors_absent_key (s : State Alert) (name : string) :
  make_if_nil (data s) !! name = None ->
  (State_Int s name).2 = Some 0 /\
  (State_Float s name).2 = Some (S754_zero false) /\
  (State_Bool s name).2 = Some false /\
  (State_String FormatFloat64 FormatFloat32 Sprintf_v s name).2 = Some ""%string.
Proof.
  intros H.
  assert (Hv : data_get (data (State_lazy_init s)) name = VNil).
  { unfold State_lazy_init, data_get; unfold make_if_nil in H.
    destruct (data s) as [d|] eqn:Ed; cbn [data]; rewrite ?Ed;
      [rewrite H|rewrite lookup_empty]; reflexivity. }
  unfold State_Int, State_Float, State_Bool, State_String; simpl.
  rewrite Hv. repeat split.
Qed.

End ClaimsAccessors.

(** * Concrete runs *)

(** C1 (code_bug): [SetError] stages error 7 on [temp] and marks the
    mutation dirty, but after [Apply] the live State has the staged value of
    [temp] and not the staged error: its error table is the empty one
    [SetError] created, so [HasErrors()] is false, [getError("temp")] is nil
    and [Err("temp")] is the zero entry (nil [Err] field), not the entry
    holding error 7 that the staging State has.  [State.apply] copies
    [other.data] only. *)
Theorem Apply_drops_staged_error :
  match run_mops (sv_state plant, State_With)
          [MSet "temp" (VInt 42); MSetError "temp" (Some (ERaw 7))] with
  | Some (live, m) =>
      errors_get_Err (errors (mutation m)) "temp" = Some (ERaw 7) /\ dirty m = true /\
      State_Err (mutation m) "temp" = Some (EEntry (Some (ERaw 7)) 1) /\
      data_get (data (StateMutation_Apply no_alert live m)) "temp" = VInt 42 /\
      errors (StateMutation_Apply no_alert live m) = Some ∅ /\
      State_Err (StateMutation_Apply no_alert live m) "temp" = entry_error zero_entry /\
      State_getError (StateMutation_Apply no_alert live m) "temp" = None /\
      State_HasErrors (StateMutation_Apply no_alert live m) = false
  | None => False
  end.
Proof. vm_compute. repeat split. Qed.

(** C6 (code_bug): error 7 is recorded on [temp] ([CollectError]); on the
    next tick the probe calls [SetError("temp", nil)], which marks the
    mutation dirty, yet after the tick [Err("temp")] is still the entry
    holding error 7 and [HasErrors()] is true: the clear is staged, and
    [Apply] drops it. *)
Theorem SetError_nil_not_applied :
  match AddProbe (CollectError (NewSupervisor "plant" false) "temp" (Some (ERaw 7)))
          "temp" 0 (AsProbeFunc (temp_err_probe None)) with
  | Some s =>
      State_Err (sv_state s) "temp" = Some (EEntry (Some (ERaw 7)) 1) /\
      match tick no_alert s now_2026 None with
      | Some (s', tr) =>
          In (EProbe "temp") tr /\
          State_Err (sv_state s') "temp" = Some (EEntry (Some (ERaw 7)) 1) /\
          State_HasErrors (sv_state s') = true
      | None => False
      end
  | None => False
  end.
Proof. vm_compute. repeat split; auto. Qed.

(** C7 (code_bug): a tick of [err_plant] whose only change is the probe's
    [SetError("temp", err7)]: the tick's mutation is dirty and has staged the
    error and no data, so listener 1 is called, but the State it is passed
    does not hold that error: [HasErrors()] is false and [getError("temp")]
    is nil.  [State.apply] merges the staged data only. *)
Theorem listener_misses_staged_error :
  match tick_metrics now_2026 (sv_state err_plant, State_With) (sv_metrics err_plant) with
  | Some (_, m, _, _) =>
      dirty m = true /\
      State_getError (mutation m) "temp" = Some (EEntry (Some (ERaw 7)) 1) /\
      make_if_nil (data (mutation m)) = ∅
  | None => False
  end /\
  match tick no_alert err_plant now_2026 None with
  | Some (s', tr) =>
      In (EListener 1 (sv_state s')) tr /\
      State_HasErrors (sv_state s') = false /\
      State_getError (sv_state s') "temp" = None
  | None => False
  end.
Proof. vm_compute. repeat split; auto. Qed.

(** C2 (code_bug): after [Run] and [Stop] the loop's context is cancelled,
    and the loop still takes the ticker case: it invokes the probe, calls the
    listener and saves the state.  The [<-ctx.Done()] case has an empty
    body and does not leave the [for] loop. *)
Theorem loop_ticks_after_Stop :
  sv_cancelled (Stop (Run plant)) = true /\
  exists s' tr,
    loop_step no_alert (Stop (Run plant)) s' tr /\
    In (EProbe "temp") tr /\ In (EListener 1 (sv_state s')) tr /\
    In (ESave "gockpit" "plant" (data (sv_state s')) None) tr /\
    sv_cancelled s' = true.
Proof.
  split; [reflexivity|].
  destruct (tick no_alert (Stop (Run plant)) now_2026 None) as [[s' tr]|] eqn:E;
    [|vm_compute in E; discriminate].
  exists s', tr. split; [exact (loop_tick _ _ _ _ _ _ E)|].
  vm_compute in E. injection E as <- <-. vm_compute. auto 10.
Qed.

(** C3, counterexample: the live State holds a NaN under ["x"]; [Set("x",
    NaN)] with that same NaN is not a no-op, since NaN [!=] NaN in Go: it
    marks the mutation dirty and stages the value. *)
Lemma Set_same_NaN_marks_dirty :
  let live : State unit := State_set empty_State "x" (VFloat64 S754_nan) in
  data_get (data live) "x" = VFloat64 S754_nan /\
  StateMutation_Set live State_With "x" (VFloat64 S754_nan) =
    Some (live, mkMutation (State_set empty_State "x" (VFloat64 S754_nan)) true).
Proof. split; reflexivity. Qed.

(** C3, witness: the live State holds [5] under ["x"]. *)
Lemma Set_equal_value_noop_witness :
  let live : State unit := State_set empty_State "x" (VInt 5) in
  go_eq (data_get (data live) "x") (VInt 5) = Some true /\
  (StateMutation_Set live State_With "x" (VInt 5) = Some (live, State_With) /\
   (make_if_nil (data (mutation (@State_With unit))) !! "x" = None ->
    data_get (data (StateMutation_Apply no_alert live State_With)) "x" =
    data_get (data live) "x")).
Proof.
  split; [reflexivity|].
  apply (Set_equal_value_noop no_alert). reflexivity.
Defined.

(** C4, counterexample: the State of a new Supervisor serializes as
    [{"state":{}}]; there is no member ["data"]. *)
Lemma MarshalJSON_no_data_member :
  State_MarshalJSON (fun _ => None) (fun _ => None) (sv_state plant) =
    Some (JObject [("state", JObject [])]) /\
  ~ In "data"%string (map fst [("state"%string, JObject [])]).
Proof.
  split; [reflexivity|]. simpl. intros [H|[]]. discriminate.
Qed.

(** C4, witness: data [{"temp": 42}] and one error on ["temp"]. *)
Lemma MarshalJSON_members_witness :
  let s : State unit := mkState (Some {[ "temp" := VInt 42 ]})
                          (Some {[ "temp" := mkErrEntry (Some (ERaw 7)) 1 ]}) None in
  State_MarshalJSON (fun _ => Some JNull) (fun _ => None) s =
    Some (JObject [("state", JObject [("temp", JInt 42)]); ("errors", JNull)]) /\
  exists dj ms,
    JObject [("state", JObject [("temp", JInt 42)]); ("errors", JNull)] =
      JObject (("state", dj) :: ms) /\ enc_data (data s) = Some dj /\
    map fst ms = (if bool_decide (0 < size (make_if_nil (errors s)))%nat then ["errors"] else [])
                 ++ (if bool_decide (0 < size (make_if_nil (alerts s)))%nat then ["alerts"] else []).
Proof.
  split; [vm_compute; reflexivity|].
  apply (MarshalJSON_members (fun _ => Some JNull) (fun _ => None)). vm_compute. reflexivity.
Defined.

(** C5, witness: a tick of [plant] in 2026. *)
Lemma tick_due_metrics_witness :
  exists s' tr,
    tick no_alert plant now_2026 None = Some (s', tr) /\
    ((forall mg : Metric, due now_2026 mg = true <-> lastUpdate mg + interval mg < now_2026) /\
     sv_metrics s' = map (fun mg => if due now_2026 mg then set_lastUpdate mg now_2026 else mg)
                       (sv_metrics plant) /\
     (exists rest, tr = flat_map (fun mg => if due now_2026 mg then [EProbe (m_name mg)] else [])
                          (sv_metrics plant) ++ rest /\ forall n, ~ In (EProbe n) rest) /\
     (2 ^ 63 <= now_2026 -> forall mg : Metric, lastUpdate mg = 0 -> interval mg < 2 ^ 63 ->
      due now_2026 mg = true)).
Proof.
  eexists _, _. split; [vm_compute; reflexivity|].
  apply (tick_due_metrics no_alert plant now_2026 None). vm_compute. reflexivity.
Defined.

(** Witness of [tick_listeners_after_apply]: a tick of [plant] in 2026
    (dirty: [temp] becomes 42). *)
Lemma tick_listeners_after_apply_witness :
  exists s' tr,
    tick no_alert plant now_2026 None = Some (s', tr) /\
    exists live m pre post,
      tick_metrics now_2026 (sv_state plant, State_With) (sv_metrics plant) =
        Some (live, m, pre, sv_metrics s') /\
      sv_state s' = StateMutation_Apply no_alert live m /\
      tr = pre ++ [EApply]
           ++ (if dirty m then map (fun l => EListener l (sv_state s')) (sv_listeners plant) else [])
           ++ post /\
      (forall l st, ~ In (EListener l st) pre /\ ~ In (EListener l st) post) /\
      (forall k v, make_if_nil (data (mutation m)) !! k = Some v ->
                   data_get (data (sv_state s')) k = v).
Proof.
  eexists _, _. split; [vm_compute; reflexivity|].
  apply (tick_listeners_after_apply no_alert plant now_2026 None). vm_compute. reflexivity.
Defined.

(** C8, witness: a tick of [plant] in 2026 whose [Save] returns error 3. *)
Lemma tick_persists_every_tick_witness :
  exists s' tr,
    tick no_alert plant now_2026 (Some (ERaw 3)) = Some (s', tr) /\ sv_store plant = true /\
    ((exists pre : list (event unit),
        tr = pre ++ [ESave "gockpit" (sv_name plant) (data (sv_state s')) None]
             ++ [ELogError save_log_msg] /\
        forall b n f t, ~ In (ESave b n f t) pre) /\
     (forall r', exists tr', tick no_alert plant now_2026 r' = Some (s', tr')) /\
     loop_step no_alert plant s' tr).
Proof.
  eexists _, _. split; [vm_compute; reflexivity|]. split; [reflexivity|].
  apply (tick_persists_every_tick no_alert plant now_2026 (Some (ERaw 3))); vm_compute; reflexivity.
Defined.

(** C9, witness: the absent key ["pressure"] of [plant]. *)
Lemma accessors_absent_key_witness :
  make_if_nil (data (sv_state plant)) !! "pressure" = None /\
  ((State_Int (sv_state plant) "pressure").2 = Some 0 /\
   (State_Float (sv_state plant) "pressure").2 = Some (S754_zero false) /\
   (State_Bool (sv_state plant) "pressure").2 = Some false /\
   (State_String (fun _ => "?"%string) (fun _ => "?"%string) (fun _ => "?"%string)
      (sv_state plant) "pressure").2 = Some ""%string).
Proof.
  split; [vm_compute; reflexivity|].
  apply (accessors_absent_key (fun _ => "?"%string) (fun _ => "?"%string) (fun _ => "?"%string)).
  vm_compute. reflexivity.
Defined.

(** C10, witness: a probe's [Set("temp", 42)] and [SetError("temp", 7)]. *)
Lemma mutation_calls_keep_live_data_witness :
  exists live' m',
    run_mops (sv_state plant, State_With) [MSet "temp" (VInt 42); MSetError "temp" (Some (ERaw 7))] =
      Some (live', m') /\
    (data live' = data (sv_state plant) /\
     data (StateMutation_Apply no_alert live' m') =
       Some (make_if_nil (data (mutation m')) ∪ make_if_nil (data (sv_state plant)))).
Proof.
  eexists _, _. split; [vm_compute; reflexivity|].
  apply (mutation_calls_keep_live_data no_alert (sv_state plant) State_With
           [MSet "temp" (VInt 42); MSetError "temp" (Some (ERaw 7))]).
  vm_compute. reflexivity.
Defined.

(** [strconv.Itoa] on a few inputs. *)
Example Itoa_ex : (Itoa 0, Itoa 42, Itoa (-1234567)) = ("0", "42", "-1234567")%string.
Proof. reflexivity. Qed.

(** * Further properties of state.go and supervisor.go *)

Section StateExtras.
Context {Alert : Type} (FormatFloat64 FormatFloat32 : spec_float -> string)
        (Sprintf_v : value -> string).

Lemma lazy_init_get (s : State Alert) (k : string) :
  data_get (data (State_lazy_init s)) k = data_get (data s) k.
Proof.
  unfold State_lazy_init, data_get.
  destruct (data s) eqn:E; cbn [data]; rewrite ?E; [reflexivity|].
  rewrite lookup_empty. reflexivity.
Qed.

Lemma lazy_init_data (s : State Alert) :
  data (State_lazy_init s) = Some (make_if_nil (data s)) /\
  errors (State_lazy_init s) = errors s /\ alerts (State_lazy_init s) = alerts s.
Proof. unfold State_lazy_init. destruct (data s) eqn:E; simpl; rewrite ?E; auto. Qed.



(** A consequence of that: a State whose data map is nil serializes with
    ["state": null], and after any read with ["state": {}]. *)
Theorem read_changes_nil_data_json (enc_errors : Errors -> option json)
    (enc_alerts : gmap string Alert -> option json) (s : State Alert) (name : string) :
  data s = None ->
  (forall j, State_MarshalJSON enc_errors enc_alerts s = Some j ->
   exists ms, j = JObject (("state", JNull) :: ms)) /\
  (forall j, State_MarshalJSON enc_errors enc_alerts (State_Elem s name).1 = Some j ->
   exists ms, j = JObject (("state", JObject []) :: ms)).
Proof.
  intros Hn. pose proof (lazy_init_data s) as (Hd & He & Ha).
  unfold State_MarshalJSON, State_Elem; cbn [fst].
  rewrite Hd, He, Ha, Hn. cbn [make_if_nil enc_data].
  rewrite map_to_list_empty. simpl.
  split; intros j;
    destruct (omitempty_field "errors" enc_errors (errors s)) as [ej|]; simpl; try discriminate;
    destruct (omitempty_field "alerts" enc_alerts (alerts s)) as [aj|]; simpl; try discriminate;
    intros H; inversion H; eexists; reflexivity.
Qed.

(** [Elem] reads back what [set] stored, and [set] leaves every other key
    as it was. *)
Theorem Elem_set (s : State Alert) (k k' : string) (v : value) :
  k' <> k ->
  (State_Elem (State_set s k v) k).2 = v /\
  (State_Elem (State_set s k v) k').2 = (State_Elem s k').2.
Proof.
  intros Hne. unfold State_Elem; cbn [snd]. rewrite !lazy_init_get.
  unfold State_set, data_get; cbn [data]. split.
  - rewrite lookup_insert_eq. reflexivity.
  - rewrite lookup_insert_ne by congruence.
    unfold make_if_nil. destruct (data s); [reflexivity|]. rewrite lookup_empty. reflexivity.
Qed.

(** [setError(code, nil)] and [clearError(code)] both remove [code] from
    the error table and nothing else; afterwards [HasErrors()] is false
    exactly when no other code had an entry. *)
Theorem setError_nil_clearError (s : State Alert) (code : string) :
  State_clearError s code = State_setError s code None /\
  make_if_nil (errors (State_setError s code None)) !! code = None /\
  (forall c, c <> code ->
   make_if_nil (errors (State_setError s code None)) !! c = make_if_nil (errors s) !! c) /\
  (State_HasErrors (State_setError s code None) = false <->
   dom (make_if_nil (errors s)) ⊆ {[code]}).
Proof.
  unfold State_clearError, State_setError, State_HasErrors; cbn [errors make_if_nil].
  split; [reflexivity|]. split; [apply lookup_delete_eq|]. split.
  - intros c Hc. apply lookup_delete_ne. congruence.
  - rewrite bool_decide_eq_false.
    transitivity (delete code (make_if_nil (errors s)) = ∅);
      [rewrite <- map_size_empty_iff; lia|]. split.
    + intros H. intros c Hc.
      destruct (decide (c = code)) as [->|Hne]; [set_solver|].
      apply elem_of_dom in Hc. exfalso.
      assert (Hl : delete code (make_if_nil (errors s)) !! c = None) by (rewrite H; apply lookup_empty).
      rewrite lookup_delete_ne in Hl by congruence. destruct Hc as [? Hc]. congruence.
    + intros Hsub. apply map_eq. intros c. rewrite lookup_empty.
      destruct (decide (c = code)) as [->|Hc]; [apply lookup_delete_eq|].
      rewrite lookup_delete_ne by congruence. apply not_elem_of_dom. set_solver.
Qed.

End StateExtras.

Section MutationExtras.
Context {Alert : Type} (alert_update : value -> Alert -> Alert).

Lemma run_mop_live_errors (w w' : State Alert * StateMutation Alert) (o : mop) :
  run_mop w o = Some w' ->
  make_if_nil (errors w'.1) = make_if_nil (errors w.1) /\ data w'.1 = data w.1 /\
  alerts w'.1 = alerts w.1.
Proof.
  destruct w as [live m], o as [k v | k e]; simpl; intros H.
  - unfold StateMutation_Set in H.
    destruct (go_eq _ v) as [[|]|]; inversion H; auto.
  - unfold StateMutation_SetError in H.
    destruct (errors live) eqn:E, (err_eq _ _); inversion H; simpl; rewrite ?E; auto.
Qed.

(** [Set] and [SetError] never change the contents of the live State's
    error table (a nil table only becomes an empty one), so neither
    [HasErrors()] nor the entry of any code changes. *)
Theorem mutation_calls_keep_live_errors (os : list mop) :
  forall (live live' : State Alert) (m m' : StateMutation Alert),
  run_mops (live, m) os = Some (live', m') ->
  make_if_nil (errors live') = make_if_nil (errors live) /\
  State_HasErrors live' = State_HasErrors live.
Proof.
  assert (Hgen : forall (w w' : State Alert * StateMutation Alert),
            run_mops w os = Some w' ->
            make_if_nil (errors w'.1) = make_if_nil (errors w.1)).
  { induction os as [|o os IH]; simpl; intros w w' H.
    - inversion H; reflexivity.
    - destruct (run_mop w o) as [w1|] eqn:Ho; [|discriminate].
      rewrite (IH _ _ H). apply (run_mop_live_errors _ _ _ Ho). }
  intros live live' m m' H. pose proof (Hgen _ _ H) as He. simpl in He.
  split; [exact He|]. unfold State_HasErrors.
  destruct (errors live') as [e'|], (errors live) as [e|]; simpl in He; subst; try reflexivity;
    rewrite map_size_empty; reflexivity.
Qed.

(** The [dirty] flag is never reset, and a mutation left clean by a
    sequence of [Set]/[SetError] calls has staged nothing. *)
Theorem dirty_monotone_clean_unchanged (os : list mop) :
  forall (live live' : State Alert) (m m' : StateMutation Alert),
  run_mops (live, m) os = Some (live', m') ->
  (dirty m = true -> dirty m' = true) /\ (dirty m' = false -> m' = m).
Proof.
  induction os as [|o os IH]; simpl; intros live live' m m' H.
  - inversion H; subst; auto.
  - destruct o as [k v | k e]; simpl in H.
    + unfold StateMutation_Set in H.
      destruct (go_eq _ v) as [[|]|]; [| |discriminate].
      * exact (IH _ _ _ _ H).
      * destruct (IH _ _ _ _ H) as [H1 H2]. simpl in H1.
        split; [auto|]. intros Hd. rewrite H1 in Hd; [discriminate|reflexivity].
    + unfold StateMutation_SetError in H.
      destruct (err_eq _ _).
      * exact (IH _ _ _ _ H).
      * destruct (IH _ _ _ _ H) as [H1 H2]. simpl in H1.
        split; [auto|]. intros Hd. rewrite H1 in Hd; [discriminate|reflexivity].
Qed.

(** [Set] compares with the live State, not with what is staged: setting
    [k] to a value [w] that differs from the live one and then back to the
    live value keeps [w] staged, and [Apply] stores [w]. *)
Theorem Set_back_to_live_keeps_staged (live : State Alert) (m : StateMutation Alert)
    (k : string) (w v : value) :
  go_eq (data_get (data live) k) w = Some false ->
  go_eq (data_get (data live) k) v = Some true ->
  exists m', run_mops (live, m) [MSet k w; MSet k v] = Some (live, m') /\
    dirty m' = true /\
    data_get (data (StateMutation_Apply alert_update live m')) k = w.
Proof.
  intros Hw Hv. simpl. unfold StateMutation_Set at 1. rewrite Hw. simpl.
  unfold StateMutation_Set. rewrite Hv.
  eexists. split; [reflexivity|]. split; [reflexivity|].
  cbn [mutation data State_set make_if_nil].
  rewrite lookup_union, lookup_insert_eq. destruct (make_if_nil (data live) !! k); reflexivity.
Qed.


(** [Apply] never removes a key: the keys after it are those staged and
    those live before; a key not staged keeps its live value. *)
Theorem Apply_keys (live : State Alert) (m : StateMutation Alert) :
  dom (make_if_nil (data (StateMutation_Apply alert_update live m))) =
    dom (make_if_nil (data (mutation m))) ∪ dom (make_if_nil (data live)) /\
  (forall k, make_if_nil (data (mutation m)) !! k = None ->
   data_get (data (StateMutation_Apply alert_update live m)) k = data_get (data live) k).
Proof.
  split.
  - unfold StateMutation_Apply. rewrite State_apply_data. cbn [make_if_nil]. apply dom_union_L.
  - intros k Hk. unfold StateMutation_Apply. rewrite State_apply_get, Hk. reflexivity.
Qed.

(** Every [Apply], also of a mutation that staged nothing, updates every
    registered alert, with the value its key has after the merge; the alert
    table keeps its keys.  A mutation that staged nothing leaves the data as
    it was. *)
Theorem Apply_updates_every_alert (live : State Alert) (m : StateMutation Alert) (k : string) :
  make_if_nil (alerts (StateMutation_Apply alert_update live m)) !! k =
    alert_update (data_get (data (StateMutation_Apply alert_update live m)) k)
      <$> make_if_nil (alerts live) !! k /\
  make_if_nil (data (StateMutation_Apply alert_update live State_With)) = make_if_nil (data live).
Proof.
  split.
  - unfold StateMutation_Apply, State_apply; cbn [alerts data make_if_nil].
    destruct (alerts live) as [al|]; cbn [make_if_nil].
    + rewrite map_lookup_imap. destruct (al !! k); reflexivity.
    + rewrite lookup_empty. reflexivity.
  - unfold StateMutation_Apply. rewrite State_apply_data. cbn. apply map_empty_union.
Qed.


End MutationExtras.

Section SupervisorExtras.
Context {Alert : Type} (alert_update : value -> Alert -> Alert).

Lemma run_mops_live_errors (os : list mop) :
  forall (w w' : State Alert * StateMutation Alert),
  run_mops w os = Some w' -> make_if_nil (errors w'.1) = make_if_nil (errors w.1).
Proof.
  induction os as [|o os IH]; simpl; intros w w' H.
  - inversion H; reflexivity.
  - destruct (run_mop w o) as [w1|] eqn:Ho; [|discriminate].
    rewrite (IH _ _ H). apply (run_mop_live_errors _ _ _ Ho).
Qed.

Lemma tick_metrics_live_errors (now : Z) (ms : list Metric) :
  forall (w w' : State Alert * StateMutation Alert) evs ms',
  tick_metrics now w ms = Some (w', evs, ms') ->
  make_if_nil (errors w'.1) = make_if_nil (errors w.1).
Proof.
  induction ms as [|mg ms IH]; simpl; intros w w' evs ms' H.
  - inversion H; reflexivity.
  - destruct (time_After _ _).
    + destruct (Metric_updateState now mg w) as [[w1 e1]|] eqn:Hu; simpl in H; [|discriminate].
      destruct (tick_metrics now w1 ms) as [[[w2 e2] r2]|] eqn:Ht; simpl in H; [|discriminate].
      inversion H; subst. rewrite (IH _ _ _ _ Ht).
      unfold Metric_updateState in Hu. destruct (negb (due now mg)).
      * inversion Hu; reflexivity.
      * destruct (run_mops w (probe mg now)) eqn:Hr; simpl in Hu; inversion Hu; subst.
        exact (run_mops_live_errors _ _ _ Hr).
    + match type of H with context [tick_metrics now ?x ms] =>
        destruct (tick_metrics now x ms) as [[[w2 e2] r2]|] eqn:Ht end;
        simpl in H; [|discriminate].
      inversion H; subst. rewrite (IH _ _ _ _ Ht).
      destruct (State_getError w.1 (m_name mg)); [|reflexivity].
      destruct w as [live m]. unfold StateMutation_SetError; cbn [fst snd].
      destruct (errors live) eqn:E;
        match goal with |- context [if err_eq ?a ?b then _ else _] => destruct (err_eq a b) end;
        simpl; rewrite ?E; reflexivity.
Qed.

(** A tick never changes the contents of the live error table: neither
    the probes' [SetError] calls nor the re-staged errors of metrics that
    were not due reach it, so [HasErrors()] is the same after the tick. *)
Theorem tick_keeps_error_table (s : Supervisor Alert) (now : Z) (r : go_error)
    (s' : Supervisor Alert) (tr : list (event Alert)) :
  tick alert_update s now r = Some (s', tr) ->
  make_if_nil (errors (sv_state s')) = make_if_nil (errors (sv_state s)) /\
  State_HasErrors (sv_state s') = State_HasErrors (sv_state s).
Proof.
  intros H. destruct (tick_shape alert_update s now r s' tr H)
    as (live & m & pre & Ht & Hst & _).
  pose proof (tick_metrics_live_errors now _ _ _ _ _ Ht) as He. simpl in He.
  assert (Hx : make_if_nil (errors (sv_state s')) = make_if_nil (errors (sv_state s)))
    by (rewrite Hst; exact He).
  split; [exact Hx|]. unfold State_HasErrors.
  destruct (errors (sv_state s')) as [e'|], (errors (sv_state s)) as [e|]; simpl in Hx;
    subst; try reflexivity; rewrite map_size_empty; reflexivity.
Qed.

(** A tick of a Supervisor without metrics invokes no probe and no
    listener, keeps the data, and still applies the (empty) mutation and
    saves the state when there is a store. *)
Theorem tick_without_metrics (s : Supervisor Alert) (now : Z) (r : go_error) :
  sv_metrics s = [] ->
  exists s',
    tick alert_update s now r =
      Some (s', EApply :: (if sv_store s
                           then ESave "gockpit" (sv_name s) (data (sv_state s')) None
                                :: match r with Some _ => [ELogError save_log_msg] | None => [] end
                           else [])) /\
    make_if_nil (data (sv_state s')) = make_if_nil (data (sv_state s)).
Proof.
  intros H. unfold tick. rewrite H. simpl.
  eexists (mkSupervisor [] (StateMutation_Apply alert_update (sv_state s) State_With)
             (sv_listeners s) (sv_store s) (sv_name s) (sv_cancel s) (sv_cancelled s)).
  split; [reflexivity|].
  simpl. apply map_empty_union.
Qed.

(** [AddProbe(name, itv, p)] panics exactly when [p] is neither a [Probe]
    nor a [ProbeFunc]; otherwise it leaves exactly one metric under [name],
    a new one with the zero [lastUpdate] and the given interval and probe,
    keeps the metrics of other names, and does not touch the State. *)
Theorem AddProbe_replaces (s : Supervisor Alert) (name : string) (itv : Z) (p : ProbeArg) :
  (AddProbe s name itv p = None <-> p = OtherType) /\
  forall s', AddProbe s name itv p = Some s' ->
  exists mg, NewMetric name itv p = Some mg /\
    m_name mg = name /\ interval mg = itv /\ lastUpdate mg = 0 /\
    filter (fun mg => m_name mg = name) (sv_metrics s') = [mg] /\
    filter (fun mg => m_name mg <> name) (sv_metrics s') =
      filter (fun mg => m_name mg <> name) (sv_metrics s) /\
    sv_state s' = sv_state s.
Proof.
  split.
  { unfold AddProbe. destruct p; simpl; split; congruence. }
  intros s' H. unfold AddProbe in H.
  destruct (NewMetric name itv p) as [mg|] eqn:Hn; simpl in H; [|discriminate].
  assert (Hm : m_name mg = name /\ interval mg = itv /\ lastUpdate mg = 0).
  { destruct p; simpl in Hn; try discriminate; injection Hn as <-; auto. }
  destruct Hm as (Hm & Hi & Hl).
  injection H as <-. exists mg. cbn [sv_metrics sv_state]. rewrite !filter_app.
  assert (H1 : forall l : list Metric,
            filter (fun mg => m_name mg = name) (filter (fun mg => m_name mg <> name) l) = []).
  { induction l as [|x l IH]; [reflexivity|]. rewrite filter_cons.
    destruct (decide (m_name x <> name)); [rewrite filter_cons_False by tauto|]; exact IH. }
  assert (H2 : forall l : list Metric,
            filter (fun mg => m_name mg <> name) (filter (fun mg => m_name mg <> name) l) =
            filter (fun mg => m_name mg <> name) l).
  { induction l as [|x l IH]; [reflexivity|]. rewrite filter_cons.
    destruct (decide (m_name x <> name)); [rewrite filter_cons_True by tauto; f_equal|]; exact IH. }
  rewrite H1, H2. simpl.
  rewrite filter_cons_True by exact Hm. rewrite filter_cons_False by tauto.
  rewrite app_nil_r. auto 10.
Qed.


(** An entry converted to [error] never equals its own [Err] field. *)
Lemma errv_eqb_entry_self : forall (x : err_val) (n : nat), errv_eqb (EEntry (Some x) n) x = false.
Proof.
  fix IH 1. intros [z|[y|] n'] n; [reflexivity|..|reflexivity].
  change (errv_eqb (EEntry (Some y) n') y && Nat.eqb n n' = false).
  rewrite IH. reflexivity.
Qed.

Lemma err_eq_entry_field (e : ErrEntry) : err_eq (entry_error e) (Err e) = false.
Proof.
  destruct e as [[x|] n]; simpl; [apply errv_eqb_entry_self|reflexivity].
Qed.

Lemma State_getError_table (s : State Alert) (k : string) :
  State_getError s k = match make_if_nil (errors s) !! k with Some e => entry_error e | None => None end.
Proof. unfold State_getError, make_if_nil. destruct (errors s); [reflexivity|]. by rewrite lookup_empty. Qed.

Lemma run_mops_dirty (os : list mop) :
  forall (w w' : State Alert * StateMutation Alert),
  run_mops w os = Some w' -> dirty w.2 = true -> dirty w'.2 = true.
Proof.
  induction os as [|o os IH]; simpl; intros w w' H Hd.
  - inversion H; subst; exact Hd.
  - destruct (run_mop w o) as [w1|] eqn:Ho; [|discriminate].
    apply (IH _ _ H). destruct w as [live m], o as [k v | k e]; simpl in Ho.
    + unfold StateMutation_Set in Ho. destruct (go_eq _ v) as [[|]|]; inversion Ho; auto.
    + unfold StateMutation_SetError in Ho. destruct (err_eq _ _); inversion Ho; auto.
Qed.

(** The loop of a tick, one step at a time: a not-due metric with an entry
    in the live error table makes the tick's mutation dirty. *)
Lemma tick_metrics_restage_dirty (now : Z) (ms : list Metric) :
  forall (w w' : State Alert * StateMutation Alert) evs ms',
  tick_metrics now w ms = Some (w', evs, ms') ->
  (dirty w.2 = true \/
   exists mg, In mg ms /\ due now mg = false /\ make_if_nil (errors w.1) !! m_name mg <> None) ->
  dirty w'.2 = true.
Proof.
  induction ms as [|mg ms IH]; simpl; intros w w' evs ms' H Hpre.
  - inversion H; subst. destruct Hpre as [Hd|(? & [] & _)]. exact Hd.
  - fold (due now mg) in H. destruct (due now mg) eqn:Hdue.
    + destruct (Metric_updateState now mg w) as [[w1 e1]|] eqn:Hu; simpl in H; [|discriminate].
      destruct (tick_metrics now w1 ms) as [[[w2 e2] r2]|] eqn:Ht; simpl in H; [|discriminate].
      inversion H; subst. apply (IH _ _ _ _ Ht).
      destruct (Metric_updateState_due now mg w w1 e1 Hdue Hu) as [Hr _].
      destruct Hpre as [Hd|(mg0 & [<-|Hin] & Hd0 & He)].
      * left. exact (run_mops_dirty _ _ _ Hr Hd).
      * congruence.
      * right. exists mg0. rewrite (run_mops_live_errors _ _ _ Hr). auto.
    + match type of H with context [tick_metrics now ?x ms] =>
        destruct (tick_metrics now x ms) as [[[w2 e2] r2]|] eqn:Ht end;
        simpl in H; [|discriminate].
      inversion H; subst. apply (IH _ _ _ _ Ht).
      destruct w as [live m]; cbn [fst snd] in *.
      rewrite State_getError_table.
      destruct (make_if_nil (errors live) !! m_name mg) as [en|] eqn:Hen.
      * left. unfold make_if_nil in Hen.
        destruct (errors live) as [tbl|] eqn:E; [|rewrite lookup_empty in Hen; discriminate].
        pose proof (err_eq_entry_field en) as Hf. unfold entry_error in Hf |- *.
        unfold StateMutation_SetError, errors_get_Err. rewrite E. cbv zeta. rewrite E, Hen, Hf.
        reflexivity.
      * destruct Hpre as [Hd|(mg0 & [<-|Hin] & Hd0 & He)]; [left; exact Hd|contradiction|].
        right. exists mg0. auto.
Qed.

(** While a metric that is not due has an entry in the live error table,
    every tick re-stages that entry, which never equals the entry's own
    [Err] field, so the tick's mutation is dirty and every listener is
    called, whether or not anything changed. *)
Theorem tick_restages_live_error (s : Supervisor Alert) (now : Z) (r : go_error)
    (s' : Supervisor Alert) (tr : list (event Alert)) (mg : Metric) :
  tick alert_update s now r = Some (s', tr) ->
  In mg (sv_metrics s) -> due now mg = false ->
  make_if_nil (errors (sv_state s)) !! m_name mg <> None ->
  forall l, In l (sv_listeners s) -> In (EListener l (sv_state s')) tr.
Proof.
  intros H Hin Hd He l Hl.
  destruct (tick_shape alert_update s now r s' tr H)
    as (live & m & pre & Ht & _ & _ & _ & _ & _ & _ & Htr).
  assert (Hdirty : dirty m = true).
  { apply (tick_metrics_restage_dirty now (sv_metrics s) _ (live, m) _ _ Ht).
    right. exists mg. auto. }
  rewrite Htr, Hdirty. apply in_or_app. right. simpl. right. apply in_or_app. left.
  apply (in_map (fun l0 => EListener l0 (sv_state s'))). exact Hl.
Qed.

End SupervisorExtras.

Lemma options_without_interval (opts : list SupervisorOption) (cfg : bool * Z) :
  Forall (fun o => match o with WithSamplingInterval _ => False | _ => True end) opts ->
  (fold_left apply_option opts cfg).2 = cfg.2.
Proof.
  revert cfg. induction opts as [|o opts IH]; simpl; intros cfg H; [reflexivity|].
  inversion H as [|? ? Ho Hr]; subst. rewrite IH by exact Hr.
  destruct o; [reflexivity|contradiction].
Qed.

(** [NewSupervisor]'s sampling interval is the one of the last
    [WithSamplingInterval] option, unless that one is zero, and the default
    of one second when there is no such option or it is zero; it is never
    zero. *)
Theorem NewSupervisor_sampling_interval (opts1 opts2 : list SupervisorOption) (d : Z) :
  Forall (fun o => match o with WithSamplingInterval _ => False | _ => True end) opts2 ->
  (NewSupervisor_config (opts1 ++ WithSamplingInterval d :: opts2)).2 =
    (if d =? 0 then defaultSamplingInterval else d) /\
  (NewSupervisor_config opts2).2 = defaultSamplingInterval /\
  (forall opts, (NewSupervisor_config opts).2 <> 0).
Proof.
  intros H. unfold NewSupervisor_config; cbn [snd]. split; [|split].
  - rewrite fold_left_app. simpl. rewrite options_without_interval by exact H. reflexivity.
  - rewrite options_without_interval by exact H. reflexivity.
  - intros opts. destruct (Z.eqb_spec (fold_left apply_option opts (false, 0)).2 0);
      unfold defaultSamplingInterval; lia.
Qed.

Section MarshalExtras.
Context {Alert : Type}.

Lemma enc_value_ok (v : value) : is_Some (enc_value v) <-> value_encodable v = true.
Proof.
  revert v. fix IH 1. intros v.
  destruct v as [| | | | |f|f| | |vs]; simpl;
    try (split; intros; [reflexivity|eexists; reflexivity]).
  - destruct f; simpl; split; intros H; try reflexivity; try discriminate;
      try (destruct H; discriminate); eexists; reflexivity.
  - destruct f; simpl; split; intros H; try reflexivity; try discriminate;
      try (destruct H; discriminate); eexists; reflexivity.
  - induction vs as [|x vs IHvs]; simpl.
    + split; intros; [reflexivity|eexists; reflexivity].
    + rewrite andb_true_iff, <- (IH x), <- IHvs.
      destruct (enc_value x) as [j|]; simpl.
      * match goal with |- context [match ?a with _ => _ end] => destruct a end; simpl.
        -- split; intros; [split; eexists; reflexivity|eexists; reflexivity].
        -- split; [intros [? H]; discriminate|intros [_ [? H]]; discriminate].
      * split; [intros [? H]; discriminate|intros [[? H] _]; discriminate].
Qed.

Lemma enc_members_ok (l : list (string * value)) :
  is_Some (enc_members l) <-> Forall (fun kv => value_encodable kv.2 = true) l.
Proof.
  induction l as [|[k v] l IH]; simpl.
  - split; intros; [constructor|eexists; reflexivity].
  - rewrite Forall_cons, <- enc_value_ok, <- IH. simpl.
    destruct (enc_value v) as [j|]; simpl.
    + destruct (enc_members l); simpl.
      * split; intros; [split; eexists; reflexivity|eexists; reflexivity].
      * split; [intros [? H]; discriminate|intros [_ [? H]]; discriminate].
    + split; [intros [? H]; discriminate|intros [[? H] _]; discriminate].
Qed.

Lemma Forall_sort_by_key {A} (P : string * A -> Prop) (l : list (string * A)) :
  Forall P (sort_by_key l) <-> Forall P l.
Proof.
  assert (Hins : forall kv l', Forall P (insert_sorted kv l') <-> P kv /\ Forall P l').
  { intros kv. induction l' as [|kv' l' IH]; simpl.
    - rewrite Forall_singleton. split; [auto|tauto].
    - destruct (str_leb kv.1 kv'.1); rewrite !Forall_cons; [tauto|].
      rewrite IH. tauto. }
  unfold sort_by_key. induction l as [|kv l IH]; simpl; [tauto|].
  rewrite Hins, IH, Forall_cons. tauto.
Qed.

(** [MarshalJSON] fails as soon as a stored value holds a NaN or an
    infinite float; when the error and alert tables are empty it succeeds
    exactly when no stored value does. *)
Theorem MarshalJSON_fails_on_nonfinite (enc_errors : Errors -> option json)
    (enc_alerts : gmap string Alert -> option json) (s : State Alert) :
  ((exists k v, make_if_nil (data s) !! k = Some v /\ value_encodable v = false) ->
   State_MarshalJSON enc_errors enc_alerts s = None) /\
  (size (make_if_nil (errors s)) = O -> size (make_if_nil (alerts s)) = O ->
   (is_Some (State_MarshalJSON enc_errors enc_alerts s) <->
    map_Forall (fun _ v => value_encodable v = true) (make_if_nil (data s)))).
Proof.
  assert (Hd : is_Some (enc_data (data s)) <->
               map_Forall (fun _ v => value_encodable v = true) (make_if_nil (data s))).
  { rewrite map_Forall_to_list. unfold enc_data, make_if_nil.
    destruct (data s) as [m|]; simpl.
    - rewrite (Forall_iff _ _ (fun kv : string * value => value_encodable kv.2 = true))
        by (intros [? ?]; reflexivity).
      rewrite <- (Forall_sort_by_key _ (map_to_list m)), <- enc_members_ok.
      destruct (enc_members _); simpl; split; intros H; try (destruct H; discriminate);
        eexists; reflexivity.
    - rewrite map_to_list_empty. split; intros; [constructor|eexists; reflexivity]. }
  split.
  - intros (k & v & Hk & Hv).
    assert (Hn : ~ is_Some (enc_data (data s))).
    { rewrite Hd. intros Hf. specialize (Hf k v Hk). simpl in Hf. congruence. }
    unfold State_MarshalJSON.
    destruct (enc_data (data s)); [exfalso; apply Hn; eexists; reflexivity|reflexivity].
  - intros He Ha. rewrite <- Hd. unfold State_MarshalJSON, omitempty_field.
    unfold make_if_nil in He, Ha.
    destruct (errors s) as [es|]; [rewrite bool_decide_eq_false_2 by lia|];
    (destruct (alerts s) as [al|]; [rewrite bool_decide_eq_false_2 by lia|]);
    destruct (enc_data (data s)); simpl;
    split; intros H; try (destruct H; discriminate); eexists; reflexivity.
Qed.

End MarshalExtras.

(** ** Witnesses of the further properties *)

Lemma read_changes_nil_data_json_witness :
  data (@empty_State unit) = None /\
  ((forall j, State_MarshalJSON (fun _ => None) (fun _ => None) (@empty_State unit) = Some j ->
    exists ms, j = JObject (("state", JNull) :: ms)) /\
   (forall j, State_MarshalJSON (fun _ => None) (fun _ => None)
                (State_Elem (@empty_State unit) "temp").1 = Some j ->
    exists ms, j = JObject (("state", JObject []) :: ms))).
Proof.
  split; [reflexivity|].
  apply (read_changes_nil_data_json (fun _ => None) (fun _ => None) empty_State "temp").
  reflexivity.
Defined.

Lemma Elem_set_witness :
  "pressure"%string <> "temp"%string /\
  ((State_Elem (State_set (sv_state plant) "temp" (VInt 42)) "temp").2 = VInt 42 /\
   (State_Elem (State_set (sv_state plant) "temp" (VInt 42)) "pressure").2 =
     (State_Elem (sv_state plant) "pressure").2).
Proof.
  split; [discriminate|].
  apply (Elem_set (sv_state plant) "temp" "pressure" (VInt 42)). discriminate.
Defined.

Lemma Set_back_to_live_keeps_staged_witness :
  go_eq (data_get (data (State_set (@empty_State unit) "x" (VInt 5))) "x") (VInt 6) = Some false /\
  go_eq (data_get (data (State_set (@empty_State unit) "x" (VInt 5))) "x") (VInt 5) = Some true /\
  exists m', run_mops (State_set empty_State "x" (VInt 5), State_With)
               [MSet "x" (VInt 6); MSet "x" (VInt 5)] =
             Some (State_set empty_State "x" (VInt 5), m') /\
    dirty m' = true /\
    data_get (data (StateMutation_Apply no_alert (State_set empty_State "x" (VInt 5)) m')) "x"
      = VInt 6.
Proof.
  split; [reflexivity|]. split; [reflexivity|].
  apply (Set_back_to_live_keeps_staged no_alert (State_set empty_State "x" (VInt 5)) State_With
           "x" (VInt 6) (VInt 5)); reflexivity.
Defined.

Lemma mutation_calls_keep_live_errors_witness :
  exists live' m',
    run_mops (sv_state plant, State_With) [MSetError "temp" (Some (ERaw 7))] = Some (live', m') /\
    (make_if_nil (errors live') = make_if_nil (errors (sv_state plant)) /\
     State_HasErrors live' = State_HasErrors (sv_state plant)).
Proof.
  eexists _, _. split; [vm_compute; reflexivity|].
  eapply (mutation_calls_keep_live_errors [MSetError "temp" (Some (ERaw 7))] (sv_state plant) _ State_With).
  reflexivity.
Defined.

Lemma dirty_monotone_clean_unchanged_witness :
  exists live' m',
    run_mops (State_set (sv_state plant) "temp" (VInt 42), State_With)
      [MSet "temp" (VInt 42)] = Some (live', m') /\
    ((dirty (@State_With unit) = true -> dirty m' = true) /\ (dirty m' = false -> m' = State_With)).
Proof.
  eexists _, _. split; [vm_compute; reflexivity|].
  eapply (dirty_monotone_clean_unchanged [MSet "temp" (VInt 42)]
           (State_set (sv_state plant) "temp" (VInt 42))).
  reflexivity.
Defined.

Lemma tick_keeps_error_table_witness :
  exists s' tr,
    tick no_alert err_plant now_2026 None = Some (s', tr) /\
    (make_if_nil (errors (sv_state s')) =
       make_if_nil (errors (sv_state err_plant)) /\
     State_HasErrors (sv_state s') =
       State_HasErrors (sv_state err_plant)).
Proof.
  eexists _, _. split; [vm_compute; reflexivity|].
  eapply (tick_keeps_error_table no_alert _ now_2026 None). reflexivity.
Defined.

Lemma tick_without_metrics_witness :
  sv_metrics (NewSupervisor (Alert := unit) "plant" true) = [] /\
  exists s',
    tick no_alert (NewSupervisor "plant" true) now_2026 (Some (ERaw 3)) =
      Some (s', EApply :: (if sv_store (NewSupervisor (Alert := unit) "plant" true)
                           then ESave "gockpit" "plant" (data (sv_state s')) None
                                :: [ELogError save_log_msg]
                           else [])) /\
    make_if_nil (data (sv_state s')) =
      make_if_nil (data (sv_state (NewSupervisor (Alert := unit) "plant" true))).
Proof.
  split; [reflexivity|].
  apply (tick_without_metrics no_alert (NewSupervisor "plant" true) now_2026 (Some (ERaw 3))).
  reflexivity.
Defined.

Lemma NewSupervisor_sampling_interval_witness :
  Forall (fun o => match o with WithSamplingInterval _ => False | _ => True end) [WithStore true] /\
  ((NewSupervisor_config ([WithSamplingInterval 5] ++ WithSamplingInterval 0 :: [WithStore true])).2 =
     (if 0 =? 0 then defaultSamplingInterval else 0) /\
   (NewSupervisor_config [WithStore true]).2 = defaultSamplingInterval /\
   (forall opts, (NewSupervisor_config opts).2 <> 0)).
Proof.
  split; [repeat constructor|].
  apply (NewSupervisor_sampling_interval [WithSamplingInterval 5] [WithStore true] 0).
  repeat constructor.
Defined.

Lemma tick_restages_live_error_witness :
  exists s' tr,
    tick no_alert idle_plant 5 None = Some (s', tr) /\
    In (mkMetric "temp" 10 0 temp_probe) (sv_metrics idle_plant) /\
    due 5 (mkMetric "temp" 10 0 temp_probe) = false /\
    make_if_nil (errors (sv_state idle_plant)) !! m_name (mkMetric "temp" 10 0 temp_probe) <> None /\
    (forall l, In l (sv_listeners idle_plant) -> In (EListener l (sv_state s')) tr).
Proof.
  eexists _, _. split; [vm_compute; reflexivity|].
  split; [vm_compute; left; reflexivity|]. split; [reflexivity|].
  split; [vm_compute; discriminate|].
  apply (tick_restages_live_error no_alert idle_plant 5 None _ _ (mkMetric "temp" 10 0 temp_probe)).
  - vm_compute. reflexivity.
  - vm_compute. left. reflexivity.
  - reflexivity.
  - vm_compute. discriminate.
Defined.
